(** * my-user-info: the [get_my_user_information] tool

    A shallow embedding of [src/my-user-info.py] and the properties its
    specification states about it.

    Text is modelled as [string], the sequence of the bytes of its UTF-8
    encoding: concatenation, equality and the substring relation of
    Python's [str] are those of the encoded bytes.  Python's [int] is
    unbounded and is modelled as [Z]. *)

From Stdlib Require Import ZArith List String Ascii Bool Lia.
From Stdlib Require Import Decimal DecimalString DecimalPos DecimalZ.
Import ListNotations.

Local Open Scope string_scope.
Local Open Scope Z_scope.

(** ** Data model *)

(** The [User] row as the function reads it: the five attributes that
    appear in the report, plus [email]. *)
Record User : Type := mkUser {
  email : string;
  avatar : string;
  description : string;
  total_requests : Z;
  used_requests : Z;
  is_feishu_user : bool
}.

(** The [bot] context object.  The function reads [bot.email] and calls
    [bot.db()]; the latter hands out sessions on the database named by
    [bot_db]. *)
Record Bot : Type := mkBot {
  bot_email : string;
  bot_db : nat
}.

(** A session, as yielded by [next(bot.db())]: it remembers the
    database it is bound to. *)
Record Session : Type := mkSession { session_db : nat }.

(** ** Python's conversions used by the f-string *)

(** [str(n)] for an [int]: decimal digits, a leading [-] when negative,
    no leading zeros, ["0"] for zero. *)
Definition str_int (n : Z) : string :=
  NilZero.string_of_int (Z.to_int n).

(** [int(s)] restricted to what [str_int] can produce. *)
Definition int_of_str (s : string) : option Z :=
  option_map Z.of_int (NilZero.int_of_string s).

(** [str(b)] for a [bool]. *)
Definition str_bool (b : bool) : string :=
  if b then "True" else "False".

(** ** Effects

    The function talks to three collaborators: standard output
    ([print]), the connection provider ([bot.db()]) and the user
    repository ([crud_user.get_user_by_email]).  A call to one of them
    is an [Event]; a program is a tree of events ending in the returned
    value.  [Write] stands for what a session can do besides reading
    (create, update or delete rows): the function never issues it, and
    it is there so that this fact can be stated. *)
Inductive Event : Type -> Type :=
| Print (line : string) : Event unit
| NextDb (db : nat) : Event Session
| GetUserByEmail (sess : Session) (mail : string) : Event (option User)
| Write (sess : Session) (rows : list User) : Event unit.

Inductive prog (A : Type) : Type :=
| Ret (a : A)
| Vis {X : Type} (e : Event X) (k : X -> prog A).

Arguments Ret {A} a.
Arguments Vis {A X} e k.

Fixpoint bind {A B : Type} (p : prog A) (f : A -> prog B) : prog B :=
  match p with
  | Ret a => f a
  | Vis e k => Vis e (fun x => bind (k x) f)
  end.

Definition trigger {X : Type} (e : Event X) : prog X := Vis e Ret.

Notation "x <- p ;; q" := (bind p (fun x => q))
  (at level 61, p at next level, right associativity).
Notation "p ;;; q" := (bind p (fun _ => q))
  (at level 61, right associativity).

(** ** The program *)

Definition print (line : string) : prog unit := trigger (Print line).
Definition next_db (bot : Bot) : prog Session := trigger (NextDb (bot_db bot)).
Definition get_user_by_email (sess : Session) (mail : string)
  : prog (option User) := trigger (GetUserByEmail sess mail).

(** The line feed written [\n] in the source, and the double quote. *)
Definition LF : string := String (ascii_of_nat 10) EmptyString.
Definition DQUOTE : string := String (ascii_of_nat 34) EmptyString.

(** The banner printed before the lookup; [print] itself adds the final
    line feed (see [handle]). *)
Definition banner (bot : Bot) : string :=
  LF ++ "===========================" ++ bot_email bot
     ++ "===========================" ++ LF.

(** The f-string bound to [content].  Every source line of the literal
    but the last ends in the escape [\n] followed by the line break of
    the triple-quoted literal itself, hence the doubled [LF]. *)
Definition content (user : User) : string :=
  "您的登录用户信息如下：" ++ LF ++ LF ++
  "头像：![头像](" ++ avatar user ++ " " ++ DQUOTE ++ "=60x40" ++ DQUOTE ++ ")" ++ LF ++ LF ++
  "邮箱: " ++ email user ++ LF ++ LF ++
  "描述: " ++ description user ++ LF ++ LF ++
  "剩余使用次数: " ++ str_int (total_requests user - used_requests user) ++ LF ++ LF ++
  "是否飞书用户：" ++ str_bool (is_feishu_user user) ++ LF.

Definition no_user_information : string := "No user information".

(** The tool.  [tool_input] may be any value, hence the type parameter.
    The test [if not user] succeeds on [None] only, a row object being
    true in Python.  The decorator [@tool(return_direct=True)] registers
    the function with the host and leaves its body as it is. *)
Definition get_my_user_information {T : Type} (tool_input : T) (bot : Bot)
  : prog string :=
  print (banner bot) ;;;
  sess <- next_db bot ;;
  user <- get_user_by_email sess (bot_email bot) ;;
  match user with
  | None => Ret no_user_information
  | Some user => Ret (content user)
  end.

(** ** The collaborators

    None of them is defined in [src/my-user-info.py]. *)

(** What a call does: it returns a value or raises.  The function has
    no [try], so an exception of a collaborator leaves it at once. *)
Inductive outcome (A : Type) : Type :=
| Returned (a : A)
| Raised.

Arguments Returned {A} a.
Arguments Raised {A}.

(** Modelled from the spec: the external store and the console.  Each
    reachable database holds the rows of the user table; an unreachable
    one has none and every call on it raises. *)
Record World : Type := mkWorld {
  databases : nat -> option (list User);
  stdout : string
}.

(** Modelled from the spec: the query [get user record by email]
    answers the first row whose [email] is the requested one, or the
    absent result. *)
Definition first_by_email (rows : list User) (mail : string) : option User :=
  find (fun u => String.eqb (email u) mail) rows.

Definition set_stdout (w : World) (out : string) : World :=
  mkWorld (databases w) out.

Definition set_rows (w : World) (db : nat) (rows : list User) : World :=
  mkWorld (fun n => if Nat.eqb n db then Some rows else databases w n)
          (stdout w).

(** Modelled from the spec: how each collaborator answers a call.
    [print] appends its argument and a line feed to the console. *)
Definition handle {X : Type} (e : Event X) (w : World) : outcome X * World :=
  match e in Event X return outcome X * World with
  | Print line => (Returned tt, set_stdout w (stdout w ++ line ++ LF))
  | NextDb db =>
      match databases w db with
      | Some _ => (Returned (mkSession db), w)
      | None => (Raised, w)
      end
  | GetUserByEmail sess mail =>
      match databases w (session_db sess) with
      | Some rows => (Returned (first_by_email rows mail), w)
      | None => (Raised, w)
      end
  | Write sess rows =>
      match databases w (session_db sess) with
      | Some _ => (Returned tt, set_rows w (session_db sess) rows)
      | None => (Raised, w)
      end
  end.

(** A call a run has made, with its argument. *)
Inductive Call : Type :=
| call {X : Type} (e : Event X).

(** One run: what the program returned, the world it left, and the
    calls it made, in order. *)
Record Run (A : Type) : Type := mkRun {
  result : outcome A;
  final : World;
  calls : list Call
}.

Arguments mkRun {A} result final calls.
Arguments result {A} r.
Arguments final {A} r.
Arguments calls {A} r.

Fixpoint exec {A : Type} (p : prog A) (w : World) : Run A :=
  match p with
  | Ret a => mkRun (Returned a) w []
  | Vis e k =>
      match handle e w with
      | (Returned x, w') =>
          let r := exec (k x) w' in
          mkRun (result r) (final r) (call e :: calls r)
      | (Raised, w') => mkRun Raised w' [call e]
      end
  end.

(** What the lookup of an invocation observes in a world. *)
Definition lookup (w : World) (bot : Bot) : outcome (option User) :=
  match databases w (bot_db bot) with
  | Some rows => Returned (first_by_email rows (bot_email bot))
  | None => Raised
  end.

Definition is_write (c : Call) : bool :=
  match c with
  | call (Write _ _) => true
  | call _ => false
  end.

Definition is_read (c : Call) : bool :=
  match c with
  | call (GetUserByEmail _ _) => true
  | call _ => false
  end.

(** ** The fixed text of a report

    The pieces of the literal in [content] between two interpolated
    fields. *)

(** The Markdown image with its size hint. *)
Definition image_reference (src : string) : string :=
  "![头像](" ++ src ++ " " ++ DQUOTE ++ "=60x40" ++ DQUOTE ++ ")".

Definition gap_heading : string := "您的登录用户信息如下：" ++ LF ++ LF ++ "头像：".
Definition gap_email : string := LF ++ LF ++ "邮箱: ".
Definition gap_description : string := LF ++ LF ++ "描述: ".
Definition gap_remaining : string := LF ++ LF ++ "剩余使用次数: ".
Definition gap_flag : string := LF ++ LF ++ "是否飞书用户：".

(** ** Observing a report

    What a caller can tell from a returned string alone. *)

(** [part in whole], Python's substring test. *)
Fixpoint includes (part whole : string) : bool :=
  String.prefix part whole ||
  match whole with
  | EmptyString => false
  | String _ rest => includes part rest
  end.

Definition contains (part whole : string) : Prop :=
  exists pre post, whole = pre ++ part ++ post.

(** The parts occur in the whole one after the other, without overlap. *)
Fixpoint in_order (parts : list string) (whole : string) : Prop :=
  match parts with
  | [] => True
  | part :: parts' =>
      exists pre rest, whole = pre ++ part ++ rest /\ in_order parts' rest
  end.

Fixpoint rev_onto (s acc : string) : string :=
  match s with
  | EmptyString => acc
  | String a s' => rev_onto s' (String a acc)
  end.

Definition rev_string (s : string) : string := rev_onto s EmptyString.

Fixpoint strip_prefix (p s : string) : option string :=
  match p, s with
  | EmptyString, _ => Some s
  | String a p', String b s' =>
      if Ascii.eqb a b then strip_prefix p' s' else None
  | String _ _, EmptyString => None
  end.

Definition strip_suffix (p s : string) : option string :=
  option_map rev_string (strip_prefix (rev_string p) (rev_string s)).

Definition SPACE : ascii := ascii_of_nat 32.

Fixpoint has_space (s : string) : bool :=
  match s with
  | EmptyString => false
  | String a s' => Ascii.eqb a SPACE || has_space s'
  end.

Fixpoint until_space (s : string) : string :=
  match s with
  | EmptyString => EmptyString
  | String a s' =>
      if Ascii.eqb a SPACE then EmptyString else String a (until_space s')
  end.

(** The text after the last space. *)
Definition last_word (s : string) : string :=
  rev_string (until_space (rev_string s)).

(** A report split at its last line: what precedes the flag, and the
    flag. *)
Definition read_flag (out : string) : option (string * bool) :=
  match strip_suffix LF out with
  | None => None
  | Some s =>
      match strip_suffix "True" s with
      | Some body => Some (body, true)
      | None =>
          match strip_suffix "False" s with
          | Some body => Some (body, false)
          | None => None
          end
      end
  end.

Definition feishu_flag (out : string) : option bool :=
  option_map snd (read_flag out).

(** The number on the last line but one of a report. *)
Definition remaining_count (out : string) : option Z :=
  match read_flag out with
  | None => None
  | Some (body, _) =>
      match strip_suffix (LF ++ LF ++ "是否飞书用户：") body with
      | None => None
      | Some s => int_of_str (last_word s)
      end
  end.

(** ** What a run leaves behind *)

(** The world after the banner has been printed. *)
Definition after_banner (w : World) (bot : Bot) : World :=
  set_stdout w (stdout w ++ banner bot ++ LF).

Definition query (bot : Bot) : Call :=
  call (GetUserByEmail (mkSession (bot_db bot)) (bot_email bot)).

(** The result of a run is a function of what its lookup observed. *)
Definition answer (seen : outcome (option User)) : outcome string :=
  match seen with
  | Returned (Some user) => Returned (content user)
  | Returned None => Returned no_user_information
  | Raised => Raised
  end.

(** ** A sample store

    Used to run the tool on concrete invocations. *)

Definition vip : User :=
  mkUser "a@x.com" "http://img/1.png" "VIP" 100 30 true.

Definition overdrawn : User :=
  mkUser "o@x.com" "http://img/2.png" "spent" 10 30 false.

Definition sample_world : World :=
  mkWorld (fun n => if Nat.eqb n 0 then Some [vip; overdrawn] else None) EmptyString.

(** Another world, where database 1 holds the same [vip] row. *)
Definition mirror_world : World :=
  mkWorld (fun n => if Nat.eqb n 1 then Some [vip] else None) "earlier output".

Definition vip_bot : Bot := mkBot "a@x.com" 0.
Definition vip_mirror_bot : Bot := mkBot "a@x.com" 1.
Definition overdrawn_bot : Bot := mkBot "o@x.com" 0.
Definition stranger_bot : Bot := mkBot "nobody@x.com" 0.

(** ** Arbitrary collaborators

    The same run, with the collaborators left open: any state, and any
    answer to each call. *)

Definition Handler (S : Type) : Type :=
  forall X : Type, Event X -> S -> outcome X * S.

Record RunIn (S A : Type) : Type := mkRunIn {
  outcome_in : outcome A;
  state_in : S;
  calls_in : list Call
}.

Arguments mkRunIn {S A} outcome_in state_in calls_in.
Arguments outcome_in {S A} r.
Arguments state_in {S A} r.
Arguments calls_in {S A} r.

Fixpoint exec_with {S A : Type} (h : Handler S) (p : prog A) (s : S)
  : RunIn S A :=
  match p with
  | Ret a => mkRunIn (Returned a) s []
  | Vis e k =>
      match h _ e s with
      | (Returned x, s') =>
          let r := exec_with h (k x) s' in
          mkRunIn (outcome_in r) (state_in r) (call e :: calls_in r)
      | (Raised, s') => mkRunIn Raised s' [call e]
      end
  end.

(** A call the function can make: the banner, the request for a session,
    or a query for the bot's own email on some session. *)
Definition expected_call (bot : Bot) (c : Call) : Prop :=
  c = call (Print (banner bot)) \/
  c = call (NextDb (bot_db bot)) \/
  exists sess : Session, c = call (GetUserByEmail sess (bot_email bot)).

(** ** Line feeds in a field *)

Definition NEWLINE : ascii := ascii_of_nat 10.

Fixpoint has_line_feed (s : string) : bool :=
  match s with
  | EmptyString => false
  | String a s' => Ascii.eqb a NEWLINE || has_line_feed s'
  end.

(** Record updates, as a keyword copy of a row would do. *)
Definition with_email (user : User) (mail : string) : User :=
  mkUser mail (avatar user) (description user)
         (total_requests user) (used_requests user) (is_feishu_user user).

Definition with_description (user : User) (text : string) : User :=
  mkUser (email user) (avatar user) text
         (total_requests user) (used_requests user) (is_feishu_user user).

(** * Properties *)

(** ** Strings *)

Lemma append_assoc (a b c : string) : (a ++ b) ++ c = a ++ b ++ c.
Proof.
  induction a as [|x a IH]; simpl; [reflexivity|].
  now rewrite IH.
Qed.

Lemma append_nil_r (a : string) : a ++ EmptyString = a.
Proof.
  induction a as [|x a IH]; simpl; [reflexivity|].
  now rewrite IH.
Qed.

Lemma prefix_append (p s : string) : String.prefix p (p ++ s) = true.
Proof.
  induction p as [|x p IH]; simpl.
  - now destruct s.
  - destruct (ascii_dec x x) as [_|N]; [exact IH|now destruct N].
Qed.

Lemma prefix_inv (p s : string) :
  String.prefix p s = true -> exists post, s = p ++ post.
Proof.
  revert s; induction p as [|x p IH]; intros s H.
  - now exists s.
  - destruct s as [|y s]; simpl in H; [discriminate|].
    destruct (ascii_dec x y) as [->|_]; [|discriminate].
    destruct (IH s H) as [post ->]. now exists post.
Qed.

Lemma includes_prefix (part whole : string) :
  String.prefix part whole = true -> includes part whole = true.
Proof. intros H. destruct whole; simpl in *; now rewrite H. Qed.

Lemma includes_contains (part whole : string) :
  includes part whole = true <-> contains part whole.
Proof.
  split.
  - induction whole as [|y whole IH]; simpl; intros H.
    + rewrite orb_false_r in H. destruct part; [|discriminate].
      now exists EmptyString, EmptyString.
    + apply orb_true_iff in H. destruct H as [H|H].
      * destruct (prefix_inv part (String y whole) H) as [post E].
        exists EmptyString, post. exact E.
      * destruct (IH H) as (pre & post & ->).
        now exists (String y pre), post.
  - intros (pre & post & ->).
    induction pre as [|y pre IH].
    + change (EmptyString ++ part ++ post) with (part ++ post).
      apply includes_prefix, prefix_append.
    + simpl. simpl in IH. rewrite IH. apply orb_true_r.
Qed.

Lemma rev_onto_spec (s acc : string) : rev_onto s acc = rev_string s ++ acc.
Proof.
  unfold rev_string. revert acc.
  induction s as [|x s IH]; intros acc; simpl; [reflexivity|].
  rewrite IH, (IH (String x EmptyString)), append_assoc. reflexivity.
Qed.

Lemma rev_string_app (a b : string) :
  rev_string (a ++ b) = rev_string b ++ rev_string a.
Proof.
  induction a as [|x a IH]; simpl.
  - now rewrite append_nil_r.
  - unfold rev_string at 1 3; simpl.
    rewrite !(rev_onto_spec _ (String x EmptyString)), IH, append_assoc. reflexivity.
Qed.

Lemma rev_string_involutive (s : string) : rev_string (rev_string s) = s.
Proof.
  induction s as [|x s IH]; [reflexivity|].
  unfold rev_string at 2; simpl.
  rewrite rev_onto_spec, rev_string_app, IH. reflexivity.
Qed.

Lemma strip_prefix_app (p s : string) : strip_prefix p (p ++ s) = Some s.
Proof.
  induction p as [|x p IH]; simpl; [reflexivity|].
  now rewrite Ascii.eqb_refl.
Qed.

Lemma strip_suffix_app (p s : string) : strip_suffix p (s ++ p) = Some s.
Proof.
  unfold strip_suffix.
  rewrite rev_string_app, strip_prefix_app; simpl.
  now rewrite rev_string_involutive.
Qed.

Lemma has_space_rev_onto (s acc : string) :
  has_space (rev_onto s acc) = has_space s || has_space acc.
Proof.
  revert acc; induction s as [|x s IH]; intros acc; simpl; [reflexivity|].
  rewrite IH; simpl.
  destruct (Ascii.eqb x SPACE), (has_space s); reflexivity.
Qed.

Lemma until_space_app (word rest : string) :
  has_space word = false ->
  until_space (word ++ String SPACE rest) = word.
Proof.
  induction word as [|x word IH]; simpl; intros H.
  - reflexivity.
  - apply orb_false_iff in H. destruct H as [Hx Hw].
    rewrite Hx, (IH Hw). reflexivity.
Qed.

Lemma last_word_app (pre word : string) :
  has_space word = false ->
  last_word (pre ++ String SPACE word) = word.
Proof.
  intros H. unfold last_word.
  change (String SPACE word) with (String SPACE EmptyString ++ word).
  rewrite !rev_string_app, append_assoc.
  change (rev_string (String SPACE EmptyString) ++ rev_string pre)
    with (String SPACE (rev_string pre)).
  rewrite until_space_app, rev_string_involutive; [reflexivity|].
  unfold rev_string. rewrite has_space_rev_onto, H. reflexivity.
Qed.

(** ** Decimal text *)

Lemma digits_no_space (d : uint) :
  has_space (NilEmpty.string_of_uint d) = false.
Proof. induction d; simpl; auto. Qed.

Lemma str_int_no_space (n : Z) : has_space (str_int n) = false.
Proof.
  unfold str_int.
  destruct (Z.to_int n) as [d|d]; simpl;
    destruct d; simpl; auto using digits_no_space.
Qed.

(** [str] and [int] are inverse on every integer: the text denotes
    exactly the number it was made from. *)
Lemma int_of_str_str_int (n : Z) : int_of_str (str_int n) = Some n.
Proof.
  unfold int_of_str, str_int.
  assert (E : NilZero.int_of_string (NilZero.string_of_int (Z.to_int n))
              = Some (Z.to_int n)).
  { apply NilZero.isi.
    - destruct n as [|p|p]; simpl; try discriminate.
      intros [= E]. now destruct (DecimalPos.Unsigned.to_uint_nonnil p).
    - destruct n as [|p|p]; simpl; try discriminate.
      intros [= E]. now destruct (DecimalPos.Unsigned.to_uint_nonnil p). }
  rewrite E; simpl. now rewrite DecimalZ.of_to.
Qed.

Lemma str_int_inj (n m : Z) : str_int n = str_int m -> n = m.
Proof.
  intros E. apply (f_equal int_of_str) in E.
  rewrite !int_of_str_str_int in E. congruence.
Qed.

(** A negative number is written with its sign: nothing is clamped. *)
Lemma str_int_negative (n : Z) :
  n < 0 -> str_int n = "-" ++ str_int (- n).
Proof.
  destruct n as [|p|p]; try lia. intros _. simpl.
  unfold str_int; simpl.
  unfold NilZero.string_of_uint.
  reflexivity.
Qed.

(** ** Reading a report back *)

Lemma read_flag_layout (body : string) (b : bool) :
  read_flag (body ++ str_bool b ++ LF) = Some (body, b).
Proof.
  unfold read_flag.
  rewrite <- append_assoc, strip_suffix_app.
  destruct b; simpl str_bool.
  - now rewrite strip_suffix_app.
  - replace (strip_suffix "True" (body ++ "False")) with (@None string).
    + now rewrite strip_suffix_app.
    + unfold strip_suffix. rewrite rev_string_app. reflexivity.
Qed.

Lemma remaining_count_layout (pre : string) (n : Z) (b : bool) :
  remaining_count
    (pre ++ " " ++ str_int n ++ LF ++ LF ++ "是否飞书用户：" ++ str_bool b ++ LF)
  = Some n.
Proof.
  unfold remaining_count.
  replace (pre ++ " " ++ str_int n ++ LF ++ LF ++ "是否飞书用户：" ++ str_bool b ++ LF)
    with (((pre ++ " " ++ str_int n) ++ LF ++ LF ++ "是否飞书用户：")
            ++ str_bool b ++ LF)
    by now rewrite !append_assoc.
  rewrite read_flag_layout, strip_suffix_app.
  change (" " ++ str_int n) with (String SPACE (str_int n)).
  rewrite last_word_app by apply str_int_no_space.
  apply int_of_str_str_int.
Qed.

(** ** Running the tool *)

Lemma exec_found {T : Type} (tool_input : T) (bot : Bot) (w : World) (user : User) :
  lookup w bot = Returned (Some user) ->
  exec (get_my_user_information tool_input bot) w
  = mkRun (Returned (content user)) (after_banner w bot)
      [call (Print (banner bot)); call (NextDb (bot_db bot)); query bot].
Proof.
  unfold lookup. intros H.
  destruct (databases w (bot_db bot)) as [rows|] eqn:D; [|discriminate].
  injection H as H.
  unfold get_my_user_information, print, next_db, get_user_by_email, trigger.
  cbn -[content banner append first_by_email].
  rewrite D. cbn -[content banner append first_by_email].
  rewrite D. cbn -[content banner append first_by_email].
  rewrite H. reflexivity.
Qed.

Lemma exec_absent {T : Type} (tool_input : T) (bot : Bot) (w : World) :
  lookup w bot = Returned None ->
  exec (get_my_user_information tool_input bot) w
  = mkRun (Returned no_user_information) (after_banner w bot)
      [call (Print (banner bot)); call (NextDb (bot_db bot)); query bot].
Proof.
  unfold lookup. intros H.
  destruct (databases w (bot_db bot)) as [rows|] eqn:D; [|discriminate].
  injection H as H.
  unfold get_my_user_information, print, next_db, get_user_by_email, trigger.
  cbn -[content banner append first_by_email].
  rewrite D. cbn -[content banner append first_by_email].
  rewrite D. cbn -[content banner append first_by_email].
  rewrite H. reflexivity.
Qed.

Lemma exec_raised {T : Type} (tool_input : T) (bot : Bot) (w : World) :
  lookup w bot = Raised ->
  exec (get_my_user_information tool_input bot) w
  = mkRun Raised (after_banner w bot)
      [call (Print (banner bot)); call (NextDb (bot_db bot))].
Proof.
  unfold lookup. intros H.
  destruct (databases w (bot_db bot)) as [rows|] eqn:D; [discriminate|].
  unfold get_my_user_information, print, next_db, get_user_by_email, trigger.
  cbn -[content banner append first_by_email].
  rewrite D. reflexivity.
Qed.

Lemma result_answer {T : Type} (tool_input : T) (bot : Bot) (w : World) :
  result (exec (get_my_user_information tool_input bot) w)
  = answer (lookup w bot).
Proof.
  destruct (lookup w bot) as [[user|]|] eqn:E.
  - now rewrite (exec_found _ _ _ _ E).
  - now rewrite (exec_absent _ _ _ E).
  - now rewrite (exec_raised _ _ _ E).
Qed.

Lemma final_after_banner {T : Type} (tool_input : T) (bot : Bot) (w : World) :
  final (exec (get_my_user_information tool_input bot) w) = after_banner w bot.
Proof.
  destruct (lookup w bot) as [[user|]|] eqn:E.
  - now rewrite (exec_found _ _ _ _ E).
  - now rewrite (exec_absent _ _ _ E).
  - now rewrite (exec_raised _ _ _ E).
Qed.

Lemma lookup_after_banner (w : World) (bot bot' : Bot) :
  lookup (after_banner w bot) bot' = lookup w bot'.
Proof. reflexivity. Qed.

Lemma content_not_sentinel (user : User) : content user <> no_user_information.
Proof. unfold content, no_user_information. simpl. discriminate. Qed.

(** ** The layout of a report *)

Lemma content_parts (user : User) :
  content user
  = gap_heading ++ image_reference (avatar user)
    ++ gap_email ++ email user
    ++ gap_description ++ description user
    ++ gap_remaining ++ str_int (total_requests user - used_requests user)
    ++ gap_flag ++ str_bool (is_feishu_user user) ++ LF.
Proof.
  unfold content, image_reference,
    gap_heading, gap_email, gap_description, gap_remaining, gap_flag.
  rewrite !append_assoc. reflexivity.
Qed.

Lemma in_order_chain (g0 p1 g1 p2 g2 p3 g3 p4 g4 p5 g5 : string) :
  in_order [p1; p2; p3; p4; p5]
    (g0 ++ p1 ++ g1 ++ p2 ++ g2 ++ p3 ++ g3 ++ p4 ++ g4 ++ p5 ++ g5).
Proof.
  repeat (eexists; eexists; split; [reflexivity|]). exact I.
Qed.

Lemma content_contains_email (user : User) : contains (email user) (content user).
Proof.
  exists (gap_heading ++ image_reference (avatar user) ++ gap_email).
  eexists. rewrite content_parts, !append_assoc. reflexivity.
Qed.

Lemma content_contains_description (user : User) :
  contains (description user) (content user).
Proof.
  exists (gap_heading ++ image_reference (avatar user)
          ++ gap_email ++ email user ++ gap_description).
  eexists. rewrite content_parts, !append_assoc. reflexivity.
Qed.

Lemma remaining_count_content (user : User) :
  remaining_count (content user)
  = Some (total_requests user - used_requests user).
Proof.
  rewrite <- (remaining_count_layout
    ("您的登录用户信息如下：" ++ LF ++ LF ++
     "头像：![头像](" ++ avatar user ++ " " ++ DQUOTE ++ "=60x40" ++ DQUOTE ++ ")" ++ LF ++ LF ++
     "邮箱: " ++ email user ++ LF ++ LF ++
     "描述: " ++ description user ++ LF ++ LF ++
     "剩余使用次数:")
    (total_requests user - used_requests user) (is_feishu_user user)).
  f_equal. unfold content. rewrite !append_assoc. reflexivity.
Qed.

Lemma feishu_flag_content (user : User) :
  feishu_flag (content user) = Some (is_feishu_user user).
Proof.
  unfold feishu_flag.
  replace (content user) with
    ((gap_heading ++ image_reference (avatar user)
      ++ gap_email ++ email user
      ++ gap_description ++ description user
      ++ gap_remaining ++ str_int (total_requests user - used_requests user)
      ++ gap_flag) ++ str_bool (is_feishu_user user) ++ LF)
    by now rewrite content_parts, !append_assoc.
  now rewrite read_flag_layout.
Qed.

(** * The claims *)

(** C1: when no record matches the identity, the tool returns the fixed
    sentinel ["No user information"] and nothing else: the returned
    string is that constant, whatever the identity, the input and the
    store are. *)
Theorem not_found_returns_sentinel
    {T : Type} (tool_input : T) (bot : Bot) (w : World) :
  lookup w bot = Returned None ->
  result (exec (get_my_user_information tool_input bot) w)
  = Returned "No user information".
Proof.
  intros H. rewrite result_answer, H. reflexivity.
Qed.

Lemma not_found_returns_sentinel_witness :
  lookup sample_world stranger_bot = Returned None /\
  result (exec (get_my_user_information tt stranger_bot) sample_world)
  = Returned "No user information".
Proof.
  split; [reflexivity|].
  apply (not_found_returns_sentinel tt stranger_bot sample_world).
  reflexivity.
Defined.

(** C2: the count on the remaining-requests line of the report is
    [total_requests - used_requests], computed in the integers and
    never clamped: the line carries the decimal text of the difference,
    that text reads back as the difference, a negative difference is
    written with its sign, and a zero one as ["0"].  This holds for all
    integer fields, in particular for non-negative ones. *)
Theorem remaining_is_exact_difference
    {T : Type} (tool_input : T) (bot : Bot) (w : World) (user : User) :
  lookup w bot = Returned (Some user) ->
  let remaining := total_requests user - used_requests user in
  exists out,
    result (exec (get_my_user_information tool_input bot) w) = Returned out /\
    (exists before,
       out = before ++ "剩余使用次数: " ++ str_int remaining ++ LF ++ LF
             ++ "是否飞书用户：" ++ str_bool (is_feishu_user user) ++ LF) /\
    remaining_count out = Some remaining /\
    int_of_str (str_int remaining) = Some remaining /\
    (remaining < 0 -> str_int remaining = "-" ++ str_int (- remaining)) /\
    (remaining = 0 -> str_int remaining = "0").
Proof.
  intros H remaining.
  exists (content user). rewrite result_answer, H.
  split; [reflexivity|]. split; [|split; [|split; [|split]]].
  - eexists. unfold content. rewrite <- !append_assoc. reflexivity.
  - apply remaining_count_content.
  - apply int_of_str_str_int.
  - apply str_int_negative.
  - intros ->. reflexivity.
Qed.

Lemma remaining_is_exact_difference_witness :
  lookup sample_world overdrawn_bot = Returned (Some overdrawn) /\
  exists out,
    result (exec (get_my_user_information tt overdrawn_bot) sample_world)
    = Returned out /\
    remaining_count out = Some (-20).
Proof.
  split; [reflexivity|].
  destruct (remaining_is_exact_difference tt overdrawn_bot sample_world
              overdrawn eq_refl) as (out & R & _ & C & _).
  exists out. split; [exact R | exact C].
Defined.

(** C3: the report of a present record contains the record's email and
    its description as they are: the two strings are substrings of the
    output, each right after its label and followed by the line break
    of the template, with nothing cut, escaped or replaced. *)
Theorem email_and_description_verbatim
    {T : Type} (tool_input : T) (bot : Bot) (w : World) (user : User) :
  lookup w bot = Returned (Some user) ->
  exists out,
    result (exec (get_my_user_information tool_input bot) w) = Returned out /\
    contains (email user) out /\
    contains (description user) out /\
    includes (email user) out = true /\
    includes (description user) out = true /\
    contains ("邮箱: " ++ email user ++ LF ++ LF
              ++ "描述: " ++ description user ++ LF) out.
Proof.
  intros H. exists (content user). rewrite result_answer, H.
  split; [reflexivity|].
  pose proof (content_contains_email user) as E.
  pose proof (content_contains_description user) as D.
  repeat split; try assumption; try (now apply includes_contains).
  exists ("您的登录用户信息如下：" ++ LF ++ LF ++
          "头像：![头像](" ++ avatar user ++ " " ++ DQUOTE ++ "=60x40"
          ++ DQUOTE ++ ")" ++ LF ++ LF).
  eexists. unfold content. rewrite !append_assoc. reflexivity.
Qed.

Lemma email_and_description_verbatim_witness :
  lookup sample_world vip_bot = Returned (Some vip) /\
  exists out,
    result (exec (get_my_user_information tt vip_bot) sample_world)
    = Returned out /\
    includes "a@x.com" out = true /\ includes "VIP" out = true.
Proof.
  split; [reflexivity|].
  destruct (email_and_description_verbatim tt vip_bot sample_world vip eq_refl)
    as (out & R & _ & _ & E & D & _).
  exists out. repeat split; assumption.
Defined.

(** C4: the report of a present record is the heading followed, in this
    order, by the image reference built from the avatar with its size
    hint, the email, the description, the remaining count and the Feishu
    flag, each behind its label.  The fourth part is the remaining
    count: its text reads back as [total_requests - used_requests],
    carries the sign of a negative difference and is ["0"] for none.
    The fifth is the flag: ["True"] when [is_feishu_user] holds and
    ["False"] when it does not.  Both read back from the output. *)
Theorem report_fields_in_order
    {T : Type} (tool_input : T) (bot : Bot) (w : World) (user : User) :
  lookup w bot = Returned (Some user) ->
  let remaining := total_requests user - used_requests user in
  exists out count_text flag_text,
    result (exec (get_my_user_information tool_input bot) w) = Returned out /\
    int_of_str count_text = Some remaining /\
    (remaining < 0 -> count_text = "-" ++ str_int (- remaining)) /\
    (remaining = 0 -> count_text = "0") /\
    flag_text = (if is_feishu_user user then "True" else "False") /\
    out = "您的登录用户信息如下：" ++ LF ++ LF
          ++ "头像：" ++ image_reference (avatar user) ++ LF ++ LF
          ++ "邮箱: " ++ email user ++ LF ++ LF
          ++ "描述: " ++ description user ++ LF ++ LF
          ++ "剩余使用次数: " ++ count_text ++ LF ++ LF
          ++ "是否飞书用户：" ++ flag_text ++ LF /\
    in_order
      [ "头像：" ++ image_reference (avatar user);
        "邮箱: " ++ email user;
        "描述: " ++ description user;
        "剩余使用次数: " ++ count_text;
        "是否飞书用户：" ++ flag_text ]
      out /\
    in_order
      [ image_reference (avatar user);
        email user;
        description user;
        count_text;
        flag_text ]
      out /\
    remaining_count out = Some remaining /\
    feishu_flag out = Some (is_feishu_user user) /\
    out = "您的登录用户信息如下：" ++ LF ++ LF
          ++ "头像：" ++ image_reference (avatar user) ++ LF ++ LF
          ++ "邮箱: " ++ email user ++ LF ++ LF
          ++ "描述: " ++ description user ++ LF ++ LF
          ++ "剩余使用次数: "
          ++ str_int (total_requests user - used_requests user) ++ LF ++ LF
          ++ "是否飞书用户：" ++ str_bool (is_feishu_user user) ++ LF.
Proof.
  intros H remaining.
  exists (content user), (str_int remaining), (str_bool (is_feishu_user user)).
  rewrite result_answer, H.
  assert (L : content user
              = "您的登录用户信息如下：" ++ LF ++ LF
                ++ "头像：" ++ image_reference (avatar user) ++ LF ++ LF
                ++ "邮箱: " ++ email user ++ LF ++ LF
                ++ "描述: " ++ description user ++ LF ++ LF
                ++ "剩余使用次数: " ++ str_int remaining ++ LF ++ LF
                ++ "是否飞书用户：" ++ str_bool (is_feishu_user user) ++ LF).
  { unfold content, image_reference, remaining.
    rewrite !append_assoc. reflexivity. }
  split; [reflexivity|].
  split; [apply int_of_str_str_int|].
  split; [apply str_int_negative|].
  split; [intros ->; reflexivity|].
  split; [reflexivity|].
  split; [exact L|].
  split; [|split; [|split; [|split]]].
  - rewrite L.
    exact (in_order_chain
             ("您的登录用户信息如下：" ++ LF ++ LF)
             ("头像：" ++ image_reference (avatar user)) (LF ++ LF)
             ("邮箱: " ++ email user) (LF ++ LF)
             ("描述: " ++ description user) (LF ++ LF)
             ("剩余使用次数: " ++ str_int remaining) (LF ++ LF)
             ("是否飞书用户：" ++ str_bool (is_feishu_user user)) LF).
  - rewrite content_parts. apply in_order_chain.
  - apply remaining_count_content.
  - apply feishu_flag_content.
  - exact L.
Qed.

Lemma report_fields_in_order_witness :
  lookup sample_world overdrawn_bot = Returned (Some overdrawn) /\
  exists out,
    result (exec (get_my_user_information tt overdrawn_bot) sample_world)
    = Returned out /\
    in_order
      [image_reference "http://img/2.png"; "o@x.com"; "spent"; "-20"; "False"]
      out /\
    remaining_count out = Some (-20) /\
    feishu_flag out = Some false.
Proof.
  split; [reflexivity|].
  destruct (report_fields_in_order tt overdrawn_bot sample_world overdrawn
              eq_refl)
    as (out & count_text & flag_text & R & _ & C & _ & F & _ & _ & O & RC & FF & _).
  exists out. split; [exact R|].
  rewrite (C eq_refl), F in O.
  split; [exact O|]. split; [exact RC | exact FF].
Defined.

(** C5: the last line of the report of a present record is the flag
    label followed by ["True"] when [is_feishu_user] holds and by
    ["False"] when it does not; no other field has a say in it, and the
    flag reads back from the output. *)
Theorem feishu_flag_literal
    {T : Type} (tool_input : T) (bot : Bot) (w : World) (user : User) :
  lookup w bot = Returned (Some user) ->
  exists out body literal,
    result (exec (get_my_user_information tool_input bot) w) = Returned out /\
    out = body ++ "是否飞书用户：" ++ literal ++ LF /\
    literal = (if is_feishu_user user then "True" else "False") /\
    (literal = "True" \/ literal = "False") /\
    feishu_flag out = Some (is_feishu_user user).
Proof.
  intros H. exists (content user). rewrite result_answer, H.
  eexists. exists (str_bool (is_feishu_user user)).
  split; [reflexivity|]. split; [|split; [|split]].
  - unfold content. rewrite <- !append_assoc. reflexivity.
  - reflexivity.
  - destruct (is_feishu_user user); [now left | now right].
  - apply feishu_flag_content.
Qed.

Lemma feishu_flag_literal_witness :
  lookup sample_world overdrawn_bot = Returned (Some overdrawn) /\
  exists out,
    result (exec (get_my_user_information tt overdrawn_bot) sample_world)
    = Returned out /\
    feishu_flag out = Some false.
Proof.
  split; [reflexivity|].
  destruct (feishu_flag_literal tt overdrawn_bot sample_world overdrawn eq_refl)
    as (out & body & literal & R & _ & _ & _ & F).
  exists out. split; [exact R | exact F].
Defined.

(** C6: for the record with email a@x.com, avatar http://img/1.png,
    description VIP, 100 total and 30 used requests and the Feishu flag
    set, the report shows the remaining value 70, the email a@x.com, the
    description VIP and the literal True. *)
Theorem example_vip_report
    {T : Type} (tool_input : T) (bot : Bot) (w : World) :
  lookup w bot
  = Returned (Some (mkUser "a@x.com" "http://img/1.png" "VIP" 100 30 true)) ->
  exists out,
    result (exec (get_my_user_information tool_input bot) w) = Returned out /\
    out = "您的登录用户信息如下：" ++ LF ++ LF
          ++ "头像：![头像](http://img/1.png " ++ DQUOTE ++ "=60x40" ++ DQUOTE
          ++ ")" ++ LF ++ LF
          ++ "邮箱: a@x.com" ++ LF ++ LF
          ++ "描述: VIP" ++ LF ++ LF
          ++ "剩余使用次数: 70" ++ LF ++ LF
          ++ "是否飞书用户：True" ++ LF /\
    includes "70" out = true /\
    includes "a@x.com" out = true /\
    includes "VIP" out = true /\
    includes "True" out = true /\
    remaining_count out = Some 70 /\
    feishu_flag out = Some true.
Proof.
  intros H. eexists. rewrite result_answer, H.
  split; [reflexivity|].
  repeat split; vm_compute; reflexivity.
Qed.

Lemma example_vip_report_witness :
  lookup sample_world vip_bot
  = Returned (Some (mkUser "a@x.com" "http://img/1.png" "VIP" 100 30 true)) /\
  exists out,
    result (exec (get_my_user_information tt vip_bot) sample_world)
    = Returned out /\
    includes "70" out = true.
Proof.
  split; [reflexivity|].
  destruct (example_vip_report tt vip_bot sample_world eq_refl)
    as (out & R & _ & N & _).
  exists out. split; [exact R | exact N].
Defined.

(** C7: the output is a function of what the lookup observed.  Two
    invocations whose lookups observe the same thing (the same record,
    the same absence, or the same failure) end alike, byte for byte,
    whatever their inputs, identities and worlds; and an invocation
    repeated in the world the first one left ends as the first did. *)
Theorem same_snapshot_same_output
    {T1 T2 : Type} (input1 : T1) (input2 : T2)
    (bot1 bot2 : Bot) (w1 w2 : World) :
  lookup w1 bot1 = lookup w2 bot2 ->
  result (exec (get_my_user_information input1 bot1) w1)
  = result (exec (get_my_user_information input2 bot2) w2) /\
  result (exec (get_my_user_information input2 bot1)
            (final (exec (get_my_user_information input1 bot1) w1)))
  = result (exec (get_my_user_information input1 bot1) w1).
Proof.
  intros H. split.
  - rewrite !result_answer, H. reflexivity.
  - rewrite !result_answer, final_after_banner, lookup_after_banner.
    reflexivity.
Qed.

Lemma same_snapshot_same_output_witness :
  lookup sample_world vip_bot = lookup mirror_world vip_mirror_bot /\
  result (exec (get_my_user_information tt vip_bot) sample_world)
  = result (exec (get_my_user_information 7%nat vip_mirror_bot) mirror_world).
Proof.
  split; [reflexivity|].
  apply (same_snapshot_same_output tt 7%nat vip_bot vip_mirror_bot
           sample_world mirror_world).
  reflexivity.
Defined.

(** C8: the tool input is ignored.  Two invocations that differ only in
    their input, of whatever types, are the same program: they make the
    same calls, leave the same world and return the same string. *)
Theorem tool_input_ignored
    {T1 T2 : Type} (input1 : T1) (input2 : T2) (bot : Bot) :
  get_my_user_information input1 bot = get_my_user_information input2 bot /\
  forall w : World,
    exec (get_my_user_information input1 bot) w
    = exec (get_my_user_information input2 bot) w.
Proof.
  split; [reflexivity | intros w; reflexivity].
Qed.

(** C9: an invocation writes nothing to the store.  Whether the record
    is found, absent or the store fails, every database is afterwards
    what it was, so is what any lookup observes, none of the calls made
    is a write, and the only read is the one query for the record of the
    bot's email (none if the connection could not be had). *)
Theorem no_writes {T : Type} (tool_input : T) (bot : Bot) (w : World) :
  let r := exec (get_my_user_information tool_input bot) w in
  databases (final r) = databases w /\
  (forall bot' : Bot, lookup (final r) bot' = lookup w bot') /\
  forallb (fun c => negb (is_write c)) (calls r) = true /\
  (filter is_read (calls r) = [query bot] \/
   result r = Raised /\ filter is_read (calls r) = []).
Proof.
  intros r. subst r.
  destruct (lookup w bot) as [[user|]|] eqn:E.
  - rewrite (exec_found _ _ _ _ E). repeat split. now left.
  - rewrite (exec_absent _ _ _ E). repeat split. now left.
  - rewrite (exec_raised _ _ _ E). repeat split. now right.
Qed.

(** C10: the report of a present record is never the not-found
    sentinel, so an invocation that found its record and one that did
    not never return the same string. *)
Theorem found_differs_from_sentinel
    {T1 T2 : Type} (input1 : T1) (input2 : T2)
    (bot1 bot2 : Bot) (w1 w2 : World) (user : User) :
  lookup w1 bot1 = Returned (Some user) ->
  lookup w2 bot2 = Returned None ->
  result (exec (get_my_user_information input1 bot1) w1)
  <> Returned "No user information" /\
  result (exec (get_my_user_information input1 bot1) w1)
  <> result (exec (get_my_user_information input2 bot2) w2).
Proof.
  intros H1 H2. rewrite !result_answer, H1, H2. simpl answer.
  assert (N : Returned (content user) <> Returned no_user_information).
  { pose proof (content_not_sentinel user). congruence. }
  split; exact N.
Qed.

Lemma found_differs_from_sentinel_witness :
  lookup sample_world vip_bot = Returned (Some vip) /\
  lookup sample_world stranger_bot = Returned None /\
  result (exec (get_my_user_information tt vip_bot) sample_world)
  <> result (exec (get_my_user_information tt stranger_bot) sample_world).
Proof.
  split; [reflexivity|]. split; [reflexivity|].
  apply (found_differs_from_sentinel tt tt vip_bot stranger_bot
           sample_world sample_world vip); reflexivity.
Defined.

(** * Further properties of the tool *)

(** ** Cancellation and lines *)

Lemma append_cancel_l (p a b : string) : p ++ a = p ++ b -> a = b.
Proof.
  induction p as [|x p IH]; simpl; intros H; [exact H|].
  injection H as H. exact (IH H).
Qed.

Lemma append_cancel_r (a b s : string) : a ++ s = b ++ s -> a = b.
Proof.
  intros H. apply (f_equal rev_string) in H.
  rewrite !rev_string_app in H. apply append_cancel_l in H.
  apply (f_equal rev_string) in H.
  now rewrite !rev_string_involutive in H.
Qed.

Lemma has_line_feed_app (a b : string) :
  has_line_feed (a ++ b) = has_line_feed a || has_line_feed b.
Proof.
  induction a as [|x a IH]; simpl; [reflexivity|].
  now rewrite IH, orb_assoc.
Qed.

(** Two texts that agree and whose first lines are [a] and [a'] have
    the same first line and the same remainder. *)
Lemma split_first_line (a a' r r' : string) :
  has_line_feed a = false -> has_line_feed a' = false ->
  a ++ String NEWLINE r = a' ++ String NEWLINE r' ->
  a = a' /\ r = r'.
Proof.
  revert a'. induction a as [|x a IH]; intros [|y a']; simpl; intros Ha Ha' H.
  - injection H as H. now split.
  - injection H as Hy _. subst y.
    apply orb_false_iff in Ha'. destruct Ha' as [N _].
    now rewrite Ascii.eqb_refl in N.
  - injection H as Hx _. subst x.
    apply orb_false_iff in Ha. destruct Ha as [N _].
    now rewrite Ascii.eqb_refl in N.
  - injection H as -> H.
    apply orb_false_iff in Ha. apply orb_false_iff in Ha'.
    destruct (IH a' (proj2 Ha) (proj2 Ha') H) as [-> ->]. now split.
Qed.

(** The same, when the line ends in a fixed text [q]. *)
Lemma split_line (a a' q r r' : string) :
  has_line_feed a = false -> has_line_feed a' = false ->
  has_line_feed q = false ->
  a ++ q ++ LF ++ r = a' ++ q ++ LF ++ r' ->
  a = a' /\ r = r'.
Proof.
  intros Ha Ha' Hq H.
  change (LF ++ r) with (String NEWLINE r) in H.
  change (LF ++ r') with (String NEWLINE r') in H.
  rewrite <- !append_assoc in H.
  apply split_first_line in H.
  - destruct H as [H ->]. apply append_cancel_r in H. now split.
  - now rewrite has_line_feed_app, Ha, Hq.
  - now rewrite has_line_feed_app, Ha', Hq.
Qed.

Lemma append_longer (a s : string) : s <> EmptyString -> a ++ s <> a.
Proof.
  intros N H.
  assert (L : String.length (a ++ s) = String.length a) by now rewrite H.
  assert (A : forall x y, String.length (x ++ y)
                          = (String.length x + String.length y)%nat).
  { intros x y. induction x as [|c x IH]; simpl; [reflexivity|].
    now rewrite IH. }
  rewrite A in L. destruct s; [now apply N|]. simpl in L. lia.
Qed.

(** ** What a report tells about the record *)

(** X5: when neither the avatar nor the email of two records holds a
    line feed, their reports are equal exactly when the records agree on
    avatar, email, description, Feishu flag and on the difference
    [total_requests - used_requests]. *)
Theorem report_determines_fields (u u' : User) :
  has_line_feed (avatar u) = false ->
  has_line_feed (avatar u') = false ->
  has_line_feed (email u) = false ->
  has_line_feed (email u') = false ->
  content u = content u' <->
  avatar u = avatar u' /\
  email u = email u' /\
  description u = description u' /\
  total_requests u - used_requests u = total_requests u' - used_requests u' /\
  is_feishu_user u = is_feishu_user u'.
Proof.
  intros Ha Ha' He He'. split.
  - intros H.
    assert (N : total_requests u - used_requests u
                = total_requests u' - used_requests u').
    { pose proof (remaining_count_content u) as R.
      rewrite H, remaining_count_content in R. now injection R. }
    assert (F : is_feishu_user u = is_feishu_user u').
    { pose proof (feishu_flag_content u) as R.
      rewrite H, feishu_flag_content in R. now injection R. }
    unfold content in H. rewrite <- N, <- F in H.
    do 4 apply append_cancel_l in H.
    match type of H with
    | _ ++ _ ++ _ ++ _ ++ _ ++ _ ++ LF ++ ?r
      = _ ++ _ ++ _ ++ _ ++ _ ++ _ ++ LF ++ ?r' =>
        change (avatar u ++ (" " ++ DQUOTE ++ "=60x40" ++ DQUOTE ++ ")")
                  ++ LF ++ r
                = avatar u' ++ (" " ++ DQUOTE ++ "=60x40" ++ DQUOTE ++ ")")
                  ++ LF ++ r') in H
    end.
    apply split_line in H; [|assumption|assumption|reflexivity].
    destruct H as [A H].
    do 2 apply append_cancel_l in H.
    match type of H with
    | _ ++ LF ++ ?r = _ ++ LF ++ ?r' =>
        change (email u ++ String NEWLINE r = email u' ++ String NEWLINE r')
          in H
    end.
    apply split_first_line in H; [|assumption|assumption].
    destruct H as [E H].
    do 2 apply append_cancel_l in H.
    apply append_cancel_r in H.
    repeat split; assumption.
  - intros (A & E & D & N & F).
    unfold content. now rewrite A, E, D, N, F.
Qed.

Lemma report_determines_fields_witness :
  has_line_feed (avatar vip) = false /\
  has_line_feed (avatar overdrawn) = false /\
  has_line_feed (email vip) = false /\
  has_line_feed (email overdrawn) = false /\
  content vip <> content overdrawn /\
  content vip = content (mkUser "a@x.com" "http://img/1.png" "VIP" 70 0 true).
Proof.
  do 4 (split; [reflexivity|]). split.
  - intros H.
    apply (proj1 (report_determines_fields vip overdrawn
                    eq_refl eq_refl eq_refl eq_refl)) in H.
    destruct H as (_ & E & _). discriminate E.
  - apply (proj2 (report_determines_fields vip
                    (mkUser "a@x.com" "http://img/1.png" "VIP" 70 0 true)
                    eq_refl eq_refl eq_refl eq_refl)).
    repeat split.
Defined.

Lemma length_append (a b : string) :
  String.length (a ++ b) = (String.length a + String.length b)%nat.
Proof.
  induction a as [|x a IH]; simpl; [reflexivity|]. now rewrite IH.
Qed.

(** X4: nothing is escaped, so a field can pass for the next one.  A
    record whose email ends in a blank line, the description label and
    some text [x] has the very report of the record with the plain
    email and [x] put before its description, although the two records
    differ in both fields. *)
Theorem label_in_email_shifts_boundary (u : User) (x : string) :
  let forged := with_email u (email u ++ LF ++ LF ++ "描述: " ++ x) in
  let plain :=
    with_description u (x ++ LF ++ LF ++ "描述: " ++ description u) in
  content forged = content plain /\
  email forged <> email plain /\
  description forged <> description plain.
Proof.
  intros forged plain. subst forged plain. split; [|split].
  - unfold content, with_email, with_description; cbn [avatar email
      description total_requests used_requests is_feishu_user].
    rewrite !append_assoc. reflexivity.
  - cbn [with_email with_description email]. apply append_longer. discriminate.
  - cbn [with_email with_description description]. intros H.
    apply (f_equal String.length) in H.
    rewrite !length_append in H. cbn [LF String.length] in H. lia.
Qed.

(** ** The console *)

(** X1: on every outcome (record found, absent, or store failing) an
    invocation appends to the console one banner carrying the bot's
    email, framed by 27 equal signs and blank lines, and nothing else:
    what the store holds never reaches the console. *)
Theorem console_gets_banner_only
    {T : Type} (tool_input : T) (bot : Bot) (w : World) :
  let r := exec (get_my_user_information tool_input bot) w in
  stdout (final r)
  = stdout w ++ LF ++ "===========================" ++ bot_email bot
             ++ "===========================" ++ LF ++ LF /\
  forall w' : World,
    stdout w' = stdout w ->
    stdout (final (exec (get_my_user_information tool_input bot) w'))
    = stdout (final r).
Proof.
  intros r. subst r. split.
  - rewrite final_after_banner. unfold after_banner, banner; cbn [stdout set_stdout].
    rewrite !append_assoc. reflexivity.
  - intros w' H. rewrite !final_after_banner.
    unfold after_banner; cbn [stdout set_stdout]. now rewrite H.
Qed.

(** ** Any collaborators *)

Lemma exec_with_handle {A : Type} (p : prog A) (w : World) :
  exec_with (fun X => @handle X) p w
  = mkRunIn (result (exec p w)) (final (exec p w)) (calls (exec p w)).
Proof.
  revert w. induction p as [a|X e k IH]; intros w; [reflexivity|].
  cbn [exec_with exec].
  destruct (handle e w) as [[x|] w']; [|reflexivity].
  rewrite IH. reflexivity.
Qed.

Ltac tool_unfold :=
  unfold get_my_user_information, print, next_db, get_user_by_email, trigger;
  cbn -[content banner].

Ltac tool_cases h bot s :=
  tool_unfold;
  let s1 := fresh "s" in
  destruct (h unit (Print (banner bot)) s) as [[[]|] s1] eqn:?;
  cbn -[content banner];
  [ let s2 := fresh "s" in
    let sess := fresh "sess" in
    destruct (h Session (NextDb (bot_db bot)) s1) as [[sess|] s2] eqn:?;
    cbn -[content banner];
    [ let s3 := fresh "s" in
      let user := fresh "user" in
      destruct (h (option User) (GetUserByEmail sess (bot_email bot)) s2)
        as [[[user|]|] s3] eqn:?;
      cbn -[content banner]
    | ]
  | ].

(** X2: whatever the collaborators answer, an invocation makes its calls
    in one order and stops exactly at the first that raises.  When
    [print] raises, the banner is the only call.  When [print] returns
    and [bot.db()] raises, the calls are the banner and the request for
    a session.  When both return, the third and last call is the query
    for the bot's own email on the very session [bot.db()] yielded, and
    the run raises exactly when that query does.  The state is handed
    from each call to the next.  So there are between one and three
    calls, none of them a write. *)
Theorem calls_under_any_collaborators
    {S T : Type} (h : Handler S) (s : S) (tool_input : T) (bot : Bot) :
  let r := exec_with h (get_my_user_information tool_input bot) s in
  (forall s1 : S,
     h unit (Print (banner bot)) s = (Raised, s1) ->
     calls_in r = [call (Print (banner bot))] /\
     outcome_in r = Raised /\ state_in r = s1) /\
  (forall s1 s2 : S,
     h unit (Print (banner bot)) s = (Returned tt, s1) ->
     h Session (NextDb (bot_db bot)) s1 = (Raised, s2) ->
     calls_in r = [call (Print (banner bot)); call (NextDb (bot_db bot))] /\
     outcome_in r = Raised /\ state_in r = s2) /\
  (forall (s1 s2 : S) (sess : Session),
     h unit (Print (banner bot)) s = (Returned tt, s1) ->
     h Session (NextDb (bot_db bot)) s1 = (Returned sess, s2) ->
     calls_in r
     = [call (Print (banner bot)); call (NextDb (bot_db bot));
        call (GetUserByEmail sess (bot_email bot))] /\
     state_in r
     = snd (h (option User) (GetUserByEmail sess (bot_email bot)) s2) /\
     (outcome_in r = Raised <->
      fst (h (option User) (GetUserByEmail sess (bot_email bot)) s2)
      = Raised)) /\
  (exists (sess : Session) (rest : list Call),
     (calls_in r ++ rest)%list
     = [call (Print (banner bot)); call (NextDb (bot_db bot));
        call (GetUserByEmail sess (bot_email bot))]) /\
  Forall (expected_call bot) (calls_in r) /\
  forallb (fun c => negb (is_write c)) (calls_in r) = true /\
  (1 <= List.length (calls_in r) <= 3)%nat.
Proof.
  intros r. subst r.
  assert (P : expected_call bot (call (Print (banner bot)))) by now left.
  assert (N : expected_call bot (call (NextDb (bot_db bot))))
    by (right; now left).
  assert (Q : forall sess,
             expected_call bot (call (GetUserByEmail sess (bot_email bot))))
    by (intros sess; right; right; now exists sess).
  split; [|split; [|split]].
  - intros s1 H1. tool_unfold. rewrite H1. repeat split.
  - intros s1 s2 H1 H2. tool_unfold. rewrite H1. cbn -[content banner].
    rewrite H2. repeat split.
  - intros s1 s2 sess H1 H2. tool_unfold. rewrite H1. cbn -[content banner].
    rewrite H2. cbn -[content banner].
    destruct (h (option User) (GetUserByEmail sess (bot_email bot)) s2)
      as [[[user|]|] s3]; cbn -[content banner];
      repeat split; try reflexivity; discriminate.
  - tool_cases h bot s.
    1-3: split; [exists sess, []; reflexivity|];
         split; [repeat (apply Forall_cons; [solve [auto]|]); apply Forall_nil|];
         split; [reflexivity|lia].
    + split; [exists (mkSession 0),
                [call (GetUserByEmail (mkSession 0) (bot_email bot))];
              reflexivity|].
      split; [repeat (apply Forall_cons; [solve [auto]|]); apply Forall_nil|].
      split; [reflexivity|lia].
    + split; [exists (mkSession 0),
                [call (NextDb (bot_db bot));
                 call (GetUserByEmail (mkSession 0) (bot_email bot))];
              reflexivity|].
      split; [repeat (apply Forall_cons; [solve [auto]|]); apply Forall_nil|].
      split; [reflexivity|lia].
Qed.

Lemma calls_under_any_collaborators_witness :
  handle (Print (banner (mkBot "a@x.com" 5))) sample_world
  = (Returned tt, after_banner sample_world (mkBot "a@x.com" 5)) /\
  handle (NextDb 5) (after_banner sample_world (mkBot "a@x.com" 5))
  = (Raised, after_banner sample_world (mkBot "a@x.com" 5)) /\
  calls_in (exec_with (fun X => @handle X)
              (get_my_user_information tt (mkBot "a@x.com" 5)) sample_world)
  = [call (Print (banner (mkBot "a@x.com" 5))); call (NextDb 5)] /\
  outcome_in (exec_with (fun X => @handle X)
                (get_my_user_information tt (mkBot "a@x.com" 5)) sample_world)
  = Raised.
Proof.
  split; [reflexivity|]. split; [reflexivity|].
  destruct (calls_under_any_collaborators (fun X => @handle X) sample_world
              tt (mkBot "a@x.com" 5)) as (_ & B & _).
  destruct (B _ _ eq_refl eq_refl) as (C & O & _).
  split; [exact C | exact O].
Defined.

(** X3: whatever the collaborators answer, a string is returned exactly
    when all three calls return, each started in the state its
    predecessor left, and the string is decided by what the query on
    the yielded session answered: the sentinel for the absent result,
    and for a record the report of that very record, from which its
    remaining count and its flag read back and which is never the
    sentinel.  A collaborator that raises is never answered with a
    string: there is no retry and no fallback. *)
Theorem result_under_any_collaborators
    {S T : Type} (h : Handler S) (s : S) (tool_input : T) (bot : Bot)
    (out : string) :
  outcome_in (exec_with h (get_my_user_information tool_input bot) s)
  = Returned out <->
  exists (s1 s2 s3 : S) (sess : Session) (answer : option User),
    h unit (Print (banner bot)) s = (Returned tt, s1) /\
    h Session (NextDb (bot_db bot)) s1 = (Returned sess, s2) /\
    h (option User) (GetUserByEmail sess (bot_email bot)) s2
    = (Returned answer, s3) /\
    state_in (exec_with h (get_my_user_information tool_input bot) s) = s3 /\
    List.length
      (calls_in (exec_with h (get_my_user_information tool_input bot) s))
    = 3%nat /\
    match answer with
    | None => out = "No user information"
    | Some user =>
        out = content user /\
        out <> "No user information" /\
        remaining_count out
        = Some (total_requests user - used_requests user) /\
        feishu_flag out = Some (is_feishu_user user)
    end.
Proof.
  split.
  - tool_cases h bot s; intros H; try discriminate H; injection H as <-.
    + exists s0, s1, s2, sess, (Some user).
      repeat split; try assumption; try reflexivity.
      * apply content_not_sentinel.
      * apply remaining_count_content.
      * apply feishu_flag_content.
    + exists s0, s1, s2, sess, None.
      repeat split; try assumption; reflexivity.
  - intros (s1 & s2 & s3 & sess & answer & H1 & H2 & H3 & _ & _ & A).
    tool_unfold. rewrite H1. cbn -[content banner].
    rewrite H2. cbn -[content banner].
    rewrite H3.
    destruct answer as [user|]; cbn -[content banner].
    + destruct A as (-> & _). reflexivity.
    + rewrite A. reflexivity.
Qed.

Lemma result_under_any_collaborators_witness :
  outcome_in (exec_with (fun X => @handle X)
                (get_my_user_information tt overdrawn_bot) sample_world)
  = Returned (content overdrawn) /\
  exists (sess : Session) (answer : option User),
    handle (GetUserByEmail sess "o@x.com")
      (after_banner sample_world overdrawn_bot)
    = (Returned answer, after_banner sample_world overdrawn_bot) /\
    answer = Some overdrawn.
Proof.
  split; [reflexivity|].
  destruct (proj1 (result_under_any_collaborators (fun X => @handle X)
                     sample_world tt overdrawn_bot (content overdrawn))
              eq_refl)
    as (s1 & s2 & s3 & sess & answer & H1 & H2 & H3 & _ & _ & A).
  injection H1 as <-. injection H2 as <- <-. injection H3 as <- <-.
  exists (mkSession 0), (Some overdrawn). split; reflexivity.
Defined.
